(** * Multi-Agents/travel_planner.py: the interactive travel-planner session

    A shallow embedding of the script's control loop: the two result
    parsers handed to the group chat's strategies, the kernel factory, and
    [main] with its input loop.  Remote completions, standard input and
    standard output are made explicit: replies come from scripts held in
    the world, output and remote requests are logged to a trace. *)

From Stdlib Require Import String Ascii List Bool Arith Lia.
Import ListNotations.
Open Scope string_scope.

(** ** Text

    Python text is modelled by [string]; a non-ASCII character stands for
    the bytes of its UTF-8 encoding.  [lower] is [str.lower] on the ASCII
    range and leaves the other bytes alone.  No character outside the
    ASCII range lower-cases to one of the letters of [yes] or [exit]
    alone, so the two comparisons the script makes give the same answer. *)

Definition lower_char (c : ascii) : ascii :=
  let n := nat_of_ascii c in
  if ((65 <=? n) && (n <=? 90))%nat then ascii_of_nat (n + 32) else c.

Fixpoint lower (s : string) : string :=
  match s with
  | EmptyString => EmptyString
  | String c s' => String (lower_char c) (lower s')
  end.

(** [str.isspace] on the ASCII range: tab to carriage return, the four
    separators and the blank. *)
Definition is_space (c : ascii) : bool :=
  let n := nat_of_ascii c in
  (((9 <=? n) && (n <=? 13)) || ((28 <=? n) && (n <=? 32)))%nat.

Fixpoint lstrip (s : string) : string :=
  match s with
  | EmptyString => EmptyString
  | String c s' => if is_space c then lstrip s' else s
  end.

Fixpoint rstrip (s : string) : string :=
  match s with
  | EmptyString => EmptyString
  | String c s' =>
      let t := rstrip s' in
      if is_space c && (t =? "") then "" else String c t
  end.

(** The specification's "trimmed": [str.strip].  The script never calls
    it; it is here to state the specification's wording. *)
Definition strip (s : string) : string := rstrip (lstrip s).

(** ** Messages and function results *)

Inductive AuthorRole := SYSTEM | USER | ASSISTANT | TOOL.

Record ChatMessageContent := mkMessage {
  role : AuthorRole;
  name : option string;
  content : string
}.

(** [str(message)] is the text of the message. *)
Definition str (m : ChatMessageContent) : string := content m.

(** The result of a prompt function: [value] is the list of the messages
    the completion service returned. *)
Record FunctionResult := mkResult { value : list ChatMessageContent }.

(** The exceptions of the model.  [ServiceFailure] stands for whatever a
    persona's completion call raises when it fails; the three last ones are
    the framework's. *)
Inductive Exn :=
  | EOFError
  | IndexError
  | ValueError
  | ServiceFailure
  | FunctionExecutionException
  | AgentExecutionException
  | AgentChatException.

Inductive Res (A : Type) :=
  | Ok (a : A)
  | Raise (e : Exn).
Arguments Ok {A} a.
Arguments Raise {A} e.

(** ** Personas *)

Definition nl : string := String (ascii_of_nat 10) "".

Definition CONCIERGE_NAME := "Concierge".
Definition CONCIERGE_INSTRUCTIONS :=
  nl ++ "You are a concierge for a travel agency specializing in hiking trips in Kyrgyzstan." ++
  nl ++ "Your goal is to assist users in planning their hiking trips by coordinating with experts in route planning and local traditions." ++
  nl ++ "Your role is to facilitate the conversation and ensure all participants contribute to the travel plan." ++
  nl ++ "Whenever the user greets or thank you, feel free to answer without invoking other agents." ++ nl.

Definition KYRGYZSTAN_ROUTE_EXPERT_NAME := "KyrgyzstanRouteExpert".
Definition KYRGYZSTAN_ROUTE_EXPERT_INSTRUCTIONS :=
  nl ++ "You are an expert in hiking routes in Kyrgyzstan." ++
  nl ++ "Your goal is to provide detailed information on the best hiking routes in Kyrgyzstan." ++
  nl ++ "Highlight the difficulty levels, scenic spots, and any important landmarks." ++ nl.

Definition LOCAL_TRADITIONS_EXPERT_NAME := "LocalTraditionsExpert".
Definition LOCAL_TRADITIONS_EXPERT_INSTRUCTIONS :=
  nl ++ "You are an expert in the local traditions and culture of Kyrgyzstan." ++
  nl ++ "Your goal is to provide insights on local customs and traditions that hikers should be aware of." ++
  nl ++ "Emphasize respectful behavior, cultural norms, and any important local practices." ++ nl.

(** ** The result parsers handed to the two strategies *)

(** [lambda result: str(result.value[0]).lower() == "yes"]; indexing an
    empty [value] raises. *)
Definition termination_result_parser (result : FunctionResult) : Res bool :=
  match value result with
  | m :: _ => Ok (lower (str m) =? "yes")
  | [] => Raise IndexError
  end.

(** [lambda result: str(result.value[0]) if result.value else CONCIERGE_NAME];
    a list is true when it has an element. *)
Definition selection_result_parser (result : FunctionResult) : string :=
  match value result with
  | m :: _ => str m
  | [] => CONCIERGE_NAME
  end.

(** ** Backends and kernels *)

(** Modelled from the spec: [services.Service] is imported by the script but
    is not among the sources.  Its members are the backends the script's
    comment lists as available; each member's value is its name in lower
    case, which is what the script passes to the constructor. *)
Inductive Service := OpenAI | AzureOpenAI | HuggingFace.

Definition Service_of_value (v : string) : Res Service :=
  if v =? "openai" then Ok OpenAI
  else if v =? "azureopenai" then Ok AzureOpenAI
  else if v =? "huggingface" then Ok HuggingFace
  else Raise ValueError.

(** The module-level choice of backend, from
    [service_settings.global_llm_service]. *)
Definition selectedService (global_llm_service : option string) : Res Service :=
  match global_llm_service with
  | None => Ok AzureOpenAI
  | Some v => Service_of_value (lower v)
  end.

(** The completion services a kernel can hold, one per backend. *)
Inductive AIService :=
  | OpenAIChatCompletion (service_id : string)
  | AzureChatCompletion (service_id : string)
  | HuggingFaceTextCompletion (service_id : string).

Record Kernel := mkKernel { services : list AIService }.

Definition add_service (kernel : Kernel) (s : AIService) : Kernel :=
  mkKernel (services kernel ++ [s])%list.

Definition _create_kernel_with_chat_completion (service_id : string) : Kernel :=
  let kernel := mkKernel [] in
  add_service kernel (AzureChatCompletion service_id).

(** ** Agents, prompt functions, strategies and the group chat *)

Record ChatCompletionAgent := mkAgent {
  agent_service_id : string;
  agent_kernel : Kernel;
  agent_name : string;
  instructions : string
}.

Record KernelFunctionFromPrompt := mkFunction {
  function_name : string;
  prompt : string
}.

Record KernelFunctionTerminationStrategy := mkTermination {
  termination_agents : list ChatCompletionAgent;
  termination_fn : KernelFunctionFromPrompt;
  termination_kernel : Kernel;
  termination_parser : FunctionResult -> Res bool;
  termination_history_variable_name : string;
  maximum_iterations : nat
}.

Record KernelFunctionSelectionStrategy := mkSelection {
  selection_fn : KernelFunctionFromPrompt;
  selection_kernel : Kernel;
  selection_parser : FunctionResult -> string;
  selection_agent_variable_name : string;
  selection_history_variable_name : string
}.

(** The chat owns the history and the completion flag. *)
Record AgentGroupChat := mkChat {
  agents : list ChatCompletionAgent;
  termination_strategy : KernelFunctionTerminationStrategy;
  selection_strategy : KernelFunctionSelectionStrategy;
  history : list ChatMessageContent;
  is_complete : bool
}.

Definition with_history (chat : AgentGroupChat) (h : list ChatMessageContent) :=
  mkChat (agents chat) (termination_strategy chat) (selection_strategy chat)
         h (is_complete chat).

Definition with_is_complete (chat : AgentGroupChat) (b : bool) :=
  mkChat (agents chat) (termination_strategy chat) (selection_strategy chat)
         (history chat) b.

(** ** The world: scripted remote replies and a trace *)

(** What the program does to the outside: [InputPrompt] is the prompt that
    [input] writes, [PrintLine] one call of [print], [RemoteCall] one
    completion request, through a kernel and with the history it sends. *)
Inductive Event :=
  | InputPrompt (text : string)
  | PrintLine (line : string)
  | RemoteCall (kernel : Kernel) (h : list ChatMessageContent).

(** The three remote operations answer from their own scripts; [None], or
    a script that has run out, is a call that fails.  A selection or
    termination reply is what the completion service returns to the prompt
    function, a persona reply is the text of the persona's completion. *)
Record World := mkWorld {
  selection_replies : list (option FunctionResult);
  persona_replies : list (option string);
  termination_replies : list (option FunctionResult);
  trace : list Event
}.

Definition M (A : Type) : Type := World -> Res A * World.

Definition ret {A} (a : A) : M A := fun w => (Ok a, w).
Definition raise {A} (e : Exn) : M A := fun w => (Raise e, w).
Definition bind {A B} (c : M A) (k : A -> M B) : M B :=
  fun w =>
    match c w with
    | (Ok a, w') => k a w'
    | (Raise e, w') => (Raise e, w')
    end.

Notation "x <- c ;; k" := (bind c (fun x => k))
  (at level 61, c at next level, right associativity).
Notation "c ;;; k" := (bind c (fun _ => k))
  (at level 61, right associativity).

Definition lift {A} (r : Res A) : M A := fun w => (r, w).

Definition log (e : Event) : M unit :=
  fun w =>
    (Ok tt, mkWorld (selection_replies w) (persona_replies w)
                    (termination_replies w) (trace w ++ [e])%list).

(** [try: c except Exception: raise e]. *)
Definition otherwise {A} (e : Exn) (c : M A) : M A :=
  fun w =>
    match c w with
    | (Ok a, w') => (Ok a, w')
    | (Raise _, w') => (Raise e, w')
    end.

Definition answer {A} (reply : option A) : Res A :=
  match reply with
  | Some a => Ok a
  | None => Raise ServiceFailure
  end.

(** Modelled from the spec: what invoking a prompt function gives.  A call
    that fails is an error that propagates (section 4.1), and so is a call
    that returns no completion: the framework's prompt function raises
    before any parser sees a result, so a result that reaches a parser holds
    a message. *)
Definition completions (reply : option FunctionResult) : Res FunctionResult :=
  match reply with
  | Some result =>
      match value result with
      | [] => Raise FunctionExecutionException
      | _ :: _ => Ok result
      end
  | None => Raise FunctionExecutionException
  end.

Definition next_selection_reply : M FunctionResult :=
  fun w =>
    match selection_replies w with
    | [] => (Raise FunctionExecutionException, w)
    | r :: rest =>
        (completions r,
         mkWorld rest (persona_replies w) (termination_replies w) (trace w))
    end.

Definition next_persona_reply : M string :=
  fun w =>
    match persona_replies w with
    | [] => (Raise ServiceFailure, w)
    | r :: rest =>
        (answer r, mkWorld (selection_replies w) rest (termination_replies w)
                           (trace w))
    end.

Definition next_termination_reply : M FunctionResult :=
  fun w =>
    match termination_replies w with
    | [] => (Raise FunctionExecutionException, w)
    | r :: rest =>
        (completions r,
         mkWorld (selection_replies w) (persona_replies w) rest (trace w))
    end.

(** ** The group chat's operations

    The framework's [AgentGroupChat] is a dependency of the script, not part
    of it; its loop is taken from the specification's component design.
    The specification is silent on how the framework fails; there the
    framework's own behaviour is followed. *)

Definition add_chat_message (chat : AgentGroupChat) (m : ChatMessageContent)
  : AgentGroupChat :=
  with_history chat (history chat ++ [m])%list.

Definition find_agent (l : list ChatCompletionAgent) (n : string)
  : option ChatCompletionAgent :=
  find (fun a => agent_name a =? n) l.

(** Modelled from the spec: step 1 of an iteration.  The selection prompt is
    sent with the current history and the strategy's parser turns the result
    into a name; the persona of that name speaks next.  The strategy raises
    [AgentExecutionException] when the prompt function raises.  On one point
    the framework is followed and not the specification's wording: a name
    that is no persona's raises too, since the framework looks the name up
    as it is and has no default of its own; the only default is the
    parser's. *)
Definition selection_next (chat : AgentGroupChat) : M ChatCompletionAgent :=
  let strategy := selection_strategy chat in
  log (RemoteCall (selection_kernel strategy) (history chat)) ;;;
  result <- otherwise AgentExecutionException next_selection_reply ;;
  match find_agent (agents chat) (selection_parser strategy result) with
  | Some agent => ret agent
  | None => raise AgentExecutionException
  end.

(** Modelled from the spec: step 2 of an iteration.  The persona's completion
    call gets the history; the returned text becomes a turn tagged with the
    persona's name. *)
Definition invoke_agent (agent : ChatCompletionAgent) (chat : AgentGroupChat)
  : M ChatMessageContent :=
  log (RemoteCall (agent_kernel agent) (history chat)) ;;;
  text <- next_persona_reply ;;
  ret (mkMessage ASSISTANT (Some (agent_name agent)) text).

(** Modelled from the spec: step 3 of an iteration.  The termination prompt
    is sent with the updated history and the strategy's parser gives the
    verdict.  A failure of the prompt function propagates as it is. *)
Definition should_terminate (chat : AgentGroupChat) : M bool :=
  let strategy := termination_strategy chat in
  log (RemoteCall (termination_kernel strategy) (history chat)) ;;;
  result <- next_termination_reply ;;
  lift (termination_parser strategy result).

(** Modelled from the spec: [AgentGroupChat.invoke], an asynchronous
    generator.  [yield] is the body of the consumer's [async for].  The
    steps of an iteration are in the specification's order, in which a turn
    is printed before the termination prompt is sent.  A failed selection is
    raised as [AgentChatException].  The loop stops on a "stop" verdict or
    when [n] iterations are used up. *)
Fixpoint invoke_loop (n : nat) (chat : AgentGroupChat)
    (yield : ChatMessageContent -> M unit) : M AgentGroupChat :=
  match n with
  | 0 => ret chat
  | S n' =>
      agent <- otherwise AgentChatException (selection_next chat) ;;
      message <- invoke_agent agent chat ;;
      let chat := add_chat_message chat message in
      yield message ;;;
      stop <- should_terminate chat ;;
      let chat := with_is_complete chat stop in
      if stop then ret chat else invoke_loop n' chat yield
  end.

Definition invoke (chat : AgentGroupChat) (yield : ChatMessageContent -> M unit)
  : M AgentGroupChat :=
  invoke_loop (maximum_iterations (termination_strategy chat)) chat yield.

(** ** The script's objects *)

Definition agent_concierge :=
  mkAgent "concierge" (_create_kernel_with_chat_completion "concierge")
          CONCIERGE_NAME CONCIERGE_INSTRUCTIONS.

Definition agent_kyrgyzstan_route_expert :=
  mkAgent "kyrgyzstan_route_expert"
          (_create_kernel_with_chat_completion "kyrgyzstan_route_expert")
          KYRGYZSTAN_ROUTE_EXPERT_NAME KYRGYZSTAN_ROUTE_EXPERT_INSTRUCTIONS.

Definition agent_local_traditions_expert :=
  mkAgent "local_traditions_expert"
          (_create_kernel_with_chat_completion "local_traditions_expert")
          LOCAL_TRADITIONS_EXPERT_NAME LOCAL_TRADITIONS_EXPERT_INSTRUCTIONS.

Definition termination_function :=
  mkFunction "termination"
    (nl ++ "Determine if the travel plan has been agreed upon by all participants. If so, respond with a single word: yes" ++
     nl ++
     nl ++ "History:" ++
     nl ++ "{{$history}}" ++ nl).

Definition selection_function :=
  mkFunction "selection"
    (nl ++ "Determine which participant takes the next turn in a conversation based on the most recent participant." ++
     nl ++ "State only the name of the participant to take the next turn." ++
     nl ++ "No participant should take more than one turn in a row." ++
     nl ++
     nl ++ "Always follow these rules when selecting the next participant:" ++
     nl ++ "- After user input, it is " ++ CONCIERGE_NAME ++ "'s turn." ++
     nl ++ "- " ++ CONCIERGE_NAME ++ " will then decide whether to invoke " ++
           KYRGYZSTAN_ROUTE_EXPERT_NAME ++ " and " ++
           LOCAL_TRADITIONS_EXPERT_NAME ++ "." ++
     nl ++ "- Participants take turns sharing their perspectives." ++
     nl ++ "- Ensure all participants have an opportunity to contribute." ++
     nl ++ "- The conversation cycles through participants if necessary." ++
     nl ++
     nl ++ "History:" ++
     nl ++ "{{$history}}" ++ nl).

Definition personas : list ChatCompletionAgent :=
  [agent_concierge; agent_kyrgyzstan_route_expert;
   agent_local_traditions_expert].

(** The chat as [main] constructs it; a chat starts with no history and is
    not complete.  Building the kernels, the agents and the chat is taken to
    succeed: a constructor that raises, as for missing service settings,
    ends the program before the prompt and is outside the model. *)
Definition chat0 : AgentGroupChat :=
  mkChat personas
    (mkTermination personas termination_function
       (_create_kernel_with_chat_completion "termination")
       termination_result_parser "history" 20)
    (mkSelection selection_function
       (_create_kernel_with_chat_completion "selection")
       selection_result_parser "agents" "history")
    [] false.

Definition ask : string := "Ask a question or type 'exit' to quit: ".

(** [str] of a Python bool. *)
Definition str_bool (b : bool) : string := if b then "True" else "False".

(** [content.name or '*']: [None] and the empty name are both false. *)
Definition name_or (m : ChatMessageContent) (placeholder : string) : string :=
  match name m with
  | Some n => if n =? "" then placeholder else n
  | None => placeholder
  end.

Section Session.

(** How an f-string renders a member of [AuthorRole], a [str]-mixin enum:
    the member's value or its qualified name, by Python version. *)
Variable role_text : AuthorRole -> string.

(** The line printed for a turn, line 146. *)
Definition turn_line (m : ChatMessageContent) : string :=
  "# " ++ role_text (role m) ++ " - " ++ name_or m "*" ++ ": '" ++
  content m ++ "'".

Definition print_turn (m : ChatMessageContent) : M unit :=
  log (PrintLine (turn_line m)).

Definition user_line (user_input : string) : string :=
  "# " ++ role_text USER ++ ": '" ++ user_input ++ "'".

Definition status_line (chat : AgentGroupChat) : string :=
  "# IS COMPLETE: " ++ str_bool (is_complete chat).

(** Lines 142 to 146: the user's turn goes into the history and is echoed,
    then the chat is run and each turn printed. *)
Definition exchange (chat : AgentGroupChat) (user_input : string)
  : M AgentGroupChat :=
  let chat := add_chat_message chat (mkMessage USER None user_input) in
  log (PrintLine (user_line user_input)) ;;;
  invoke chat print_turn.

(** [main]: one iteration of [while True] per line of standard input;
    [input] at the end of the input raises. *)
Fixpoint main (stdin : list string) : M unit :=
  let chat := chat0 in
  log (InputPrompt ask) ;;;
  match stdin with
  | [] => raise EOFError
  | user_input :: rest =>
      if lower user_input =? "exit" then ret tt
      else
        chat <- exchange chat user_input ;;
        log (PrintLine (status_line chat)) ;;;
        main rest
  end.

(** The module as run: the backend choice is made at import, then [main]. *)
Definition program (global_llm_service : option string) (stdin : list string)
  : M unit :=
  _ <- lift (selectedService global_llm_service) ;;
  main stdin.

End Session.

(** ** Observations on a trace *)

(** The lines printed, in order. *)
Definition printed (evs : list Event) : list string :=
  flat_map (fun e => match e with PrintLine l => [l] | _ => [] end) evs.

(** The remote requests issued, in order: the kernel used and the history
    sent. *)
Definition requests (evs : list Event)
  : list (Kernel * list ChatMessageContent) :=
  flat_map (fun e => match e with RemoteCall k h => [(k, h)] | _ => [] end) evs.

(** A turn generated by one of the personas [l]. *)
Definition spoken_by (l : list ChatCompletionAgent) (m : ChatMessageContent)
  : Prop :=
  role m = ASSISTANT /\ exists a, In a l /\ name m = Some (agent_name a).

(** The kernels a chat sends requests through. *)
Definition kernels_of (chat : AgentGroupChat) : list Kernel :=
  selection_kernel (selection_strategy chat)
  :: termination_kernel (termination_strategy chat)
  :: map agent_kernel (agents chat).

Definition azure_only (k : Kernel) : Prop :=
  exists service_id, services k = [AzureChatCompletion service_id].


Section Runs.

Variable role_text : AuthorRole -> string.

(** What a run of the chat's loop leaves behind: the turns it generated,
    and the events it added to the trace. *)
Record run_summary (n : nat) (chat : AgentGroupChat)
    (out : Res AgentGroupChat * World) (w : World)
    (turns : list ChatMessageContent) (evs : list Event) : Prop := {
  run_trace : trace (snd out) = (trace w ++ evs)%list;
  run_bound : length turns <= n;
  run_printed : printed evs = map (turn_line role_text) turns;
  run_speakers : Forall (spoken_by (agents chat)) turns;
  run_requests :
    Forall (fun q => In (fst q) (kernels_of chat)
                     /\ exists pre suf, turns = (pre ++ suf)%list
                                        /\ snd q = (history chat ++ pre)%list)
           (requests evs);
  run_first_request :
    0 < n ->
    exists tl, evs = RemoteCall (selection_kernel (selection_strategy chat))
                          (history chat) :: tl;
  run_history :
    forall chat', fst out = Ok chat' ->
      history chat' = (history chat ++ turns)%list
      /\ (is_complete chat' = false -> length turns = n)
}.

(** A request of the session opened by [line], in which [turns] were
    generated: it goes to an Azure service and carries the user's turn
    followed by turns of this session, and nothing else. *)
Definition sees_only (line : string) (turns : list ChatMessageContent)
    (q : Kernel * list ChatMessageContent) : Prop :=
  azure_only (fst q)
  /\ exists pre suf, turns = (pre ++ suf)%list
                     /\ snd q = mkMessage USER None line :: pre.

(** The events of one iteration of [main]'s loop that handles [line]: the
    prompt, the echo, the exchange, and the status line unless the exchange
    raised. *)
Definition session_ok (line : string) (es : list Event) : Prop :=
  exists turns body tail,
    es = (InputPrompt ask :: PrintLine (user_line role_text line)
          :: body ++ tail)%list
    /\ (tail = []
        \/ exists b, tail = [PrintLine ("# IS COMPLETE: " ++ str_bool b)])
    /\ printed body = map (turn_line role_text) turns
    /\ length turns <= 20
    /\ Forall (spoken_by personas) turns
    /\ Forall (sees_only line turns) (requests body).

End Runs.

(** The specification's "case-insensitive match". *)
Definition matches_ignoring_case (s keyword : string) : Prop :=
  lower s = lower keyword.

(** One rendering of the roles, the members' values, for running the
    model. *)
Definition role_value (r : AuthorRole) : string :=
  match r with
  | SYSTEM => "system"
  | USER => "user"
  | ASSISTANT => "assistant"
  | TOOL => "tool"
  end.

(** A reply of the completion service with one message. *)
Definition reply (text : string) : option FunctionResult :=
  Some (mkResult [mkMessage ASSISTANT None text]).

(** A world in which the concierge answers once and the plan is agreed. *)
Definition world_agreed : World :=
  mkWorld [reply "Concierge"] [Some "Welcome!"] [reply "yes"] [].

(** A world in which the verdict is never [yes]: 25 rounds of replies. *)
Definition world_never_agreed : World :=
  mkWorld (repeat (reply "Concierge") 25) (repeat (Some "Hm.") 25)
          (repeat (reply "no") 25) [].

(** The exchange for [hello] in [world_agreed], after the prompt. *)
Definition agreed_out : Res AgentGroupChat * World :=
  exchange role_value chat0 "hello"
    (snd (log (InputPrompt ask) world_agreed)).

Definition agreed_chat : AgentGroupChat :=
  match fst agreed_out with
  | Ok chat => chat
  | Raise _ => chat0
  end.

Definition agreed_world : World := snd agreed_out.

(** The names a selection response can pick. *)
Definition persona_names : list string :=
  [CONCIERGE_NAME; KYRGYZSTAN_ROUTE_EXPERT_NAME; LOCAL_TRADITIONS_EXPERT_NAME].

(** A scripted termination reply on which the script's parser answers
    "continue": the call succeeds, the result holds a message, and its text
    does not lower-case to [yes]. *)
Definition continues (x : option FunctionResult) : Prop :=
  exists m rest, x = Some (mkResult (m :: rest))
                 /\ lower (content m) <> "yes".

(** A scripted termination reply on which the parser answers "stop". *)
Definition stops (x : option FunctionResult) : Prop :=
  exists m rest, x = Some (mkResult (m :: rest))
                 /\ lower (content m) = "yes".

(** * Properties *)

(** ** Text *)

Lemma is_space_lower_char (c : ascii) : is_space (lower_char c) = is_space c.
Proof. destruct c as [[] [] [] [] [] [] [] []]; reflexivity. Qed.

(** A text that lower-cases to [yes] has nothing to trim. *)
Lemma lower_yes_strip (s : string) : lower s = "yes" -> strip s = s.
Proof.
  destruct s as [|c1 [|c2 [|c3 [|c4 s]]]]; simpl; try discriminate.
  intros H. injection H as H1 H2 H3.
  assert (S1 : is_space c1 = false)
    by (rewrite <- is_space_lower_char, H1; reflexivity).
  assert (S3 : is_space c3 = false)
    by (rewrite <- is_space_lower_char, H3; reflexivity).
  unfold strip. simpl. rewrite S1. simpl. rewrite S3. simpl.
  rewrite S1, andb_false_r. simpl.
  destruct (is_space c2); reflexivity.
Qed.

(** The eight spellings that lower-case to [yes]. *)
Lemma lower_yes_spellings (s : string) :
  lower s = "yes" <->
  In s ["yes"; "yeS"; "yEs"; "yES"; "Yes"; "YeS"; "YEs"; "YES"].
Proof.
  split.
  - destruct s as [|c1 [|c2 [|c3 [|c4 s]]]]; simpl; try discriminate.
    intros H. injection H as H1 H2 H3.
    assert (C1 : c1 = "y"%char \/ c1 = "Y"%char)
      by (revert H1; clear; destruct c1 as [[] [] [] [] [] [] [] []];
          vm_compute; intros H; try discriminate H; auto).
    assert (C2 : c2 = "e"%char \/ c2 = "E"%char)
      by (revert H2; clear; destruct c2 as [[] [] [] [] [] [] [] []];
          vm_compute; intros H; try discriminate H; auto).
    assert (C3 : c3 = "s"%char \/ c3 = "S"%char)
      by (revert H3; clear; destruct c3 as [[] [] [] [] [] [] [] []];
          vm_compute; intros H; try discriminate H; auto).
    destruct C1, C2, C3; subst; tauto.
  - simpl. intros H.
    repeat (destruct H as [H|H]; [subst; reflexivity|]). destruct H.
Qed.

(** ** The termination verdict *)

(** C1, as the code has it: the verdict on a response is "stop" exactly when
    the response's text, lower-cased and not trimmed, is [yes]; on any other
    response it is "continue". *)
Theorem termination_verdict_lower_yes :
  forall (m : ChatMessageContent) (rest : list ChatMessageContent),
    (termination_result_parser (mkResult (m :: rest)) = Ok true
       <-> lower (content m) = "yes")
    /\ (termination_result_parser (mkResult (m :: rest)) = Ok false
       <-> lower (content m) <> "yes").
Proof.
  intros m rest. unfold termination_result_parser, str. simpl.
  destruct (lower (content m) =? "yes") eqn:E.
  - apply String.eqb_eq in E. split; split; intros H;
      try reflexivity; try assumption; try discriminate; contradiction.
  - apply String.eqb_neq in E. split; split; intros H;
      try reflexivity; try assumption; try discriminate; contradiction.
Qed.

(** C1, as the specification words it, fails: a response with a blank
    around [yes] is [yes] once trimmed and lower-cased, and the verdict is
    "continue". *)
Lemma termination_verdict_not_trimmed :
  lower (strip "Yes ") = "yes"
  /\ termination_result_parser
       (mkResult [mkMessage ASSISTANT None "Yes "]) = Ok false.
Proof. split; reflexivity. Qed.

(** One half of the specification's wording does hold: a "stop" verdict
    implies that the trimmed, lower-cased response is [yes]. *)
Lemma termination_stop_implies_trimmed_yes :
  forall m rest,
    termination_result_parser (mkResult (m :: rest)) = Ok true ->
    lower (strip (content m)) = "yes".
Proof.
  intros m rest H. apply termination_verdict_lower_yes in H.
  rewrite (lower_yes_strip _ H). exact H.
Qed.

(** ** The selection parser *)

(** C10: when the selection result holds a message, the parser returns that
    message's text as it is, whatever it says. *)
Theorem selection_parser_passes_through :
  forall result : FunctionResult,
    value result <> [] ->
    exists m, hd_error (value result) = Some m
              /\ selection_result_parser result = content m.
Proof.
  intros [[|m rest]] H; simpl in *; [congruence|].
  exists m. split; reflexivity.
Qed.

Lemma selection_parser_passes_through_witness :
  exists m, hd_error [mkMessage ASSISTANT None " concierge"] = Some m
            /\ selection_result_parser
                 (mkResult [mkMessage ASSISTANT None " concierge"])
               = content m.
Proof.
  apply (selection_parser_passes_through
           (mkResult [mkMessage ASSISTANT None " concierge"])).
  simpl. discriminate.
Defined.




(** ** What one step of the chat does to the world *)

Lemma selection_next_run (chat : AgentGroupChat) (w : World) :
  trace (snd (selection_next chat w))
  = (trace w ++ [RemoteCall (selection_kernel (selection_strategy chat))
                      (history chat)])%list
  /\ forall a, fst (selection_next chat w) = Ok a -> In a (agents chat).
Proof.
  unfold selection_next, bind, log, otherwise, next_selection_reply. simpl.
  destruct (selection_replies w) as [|[result|] rest]; simpl;
    try (split; [reflexivity|discriminate]).
  unfold completions.
  destruct (value result) as [|m0 rest0]; simpl;
    try (split; [reflexivity|discriminate]).
  unfold find_agent.
  destruct (find _ (agents chat)) as [agent|] eqn:F; simpl;
    (split; [reflexivity|]); [|discriminate].
  intros a H. injection H as <-. apply find_some in F. apply F.
Qed.

Lemma otherwise_run {A} (e : Exn) (c : M A) (w : World) :
  snd (otherwise e c w) = snd (c w)
  /\ forall a, fst (otherwise e c w) = Ok a -> fst (c w) = Ok a.
Proof.
  unfold otherwise. destruct (c w) as [[a|e'] w']; simpl;
    (split; [reflexivity|]); [auto|discriminate].
Qed.

Lemma invoke_agent_run (agent : ChatCompletionAgent) (chat : AgentGroupChat)
    (w : World) :
  trace (snd (invoke_agent agent chat w))
  = (trace w ++ [RemoteCall (agent_kernel agent) (history chat)])%list
  /\ forall m, fst (invoke_agent agent chat w) = Ok m ->
       role m = ASSISTANT /\ name m = Some (agent_name agent).
Proof.
  unfold invoke_agent, bind, log, next_persona_reply, ret. simpl.
  destruct (persona_replies w) as [|[text|] rest]; simpl;
    (split; [reflexivity|]); try discriminate.
  intros m H. injection H as <-. split; reflexivity.
Qed.

Lemma should_terminate_run (chat : AgentGroupChat) (w : World) :
  trace (snd (should_terminate chat w))
  = (trace w ++ [RemoteCall (termination_kernel (termination_strategy chat))
                      (history chat)])%list.
Proof.
  unfold should_terminate, bind, log, next_termination_reply, lift. simpl.
  destruct (termination_replies w) as [|[result|] rest]; simpl;
    try reflexivity.
  unfold completions. destruct (value result); reflexivity.
Qed.

Lemma kernels_of_agent (chat : AgentGroupChat) (a : ChatCompletionAgent) :
  In a (agents chat) -> In (agent_kernel a) (kernels_of chat).
Proof.
  intros H. unfold kernels_of. right. right. apply in_map. exact H.
Qed.

(** ** A run of the chat's loop *)

Lemma invoke_loop_S (n : nat) (chat : AgentGroupChat)
    (yield : ChatMessageContent -> M unit) (w : World) :
  invoke_loop (S n) chat yield w =
  match selection_next chat w with
  | (Raise e, w1) => (Raise AgentChatException, w1)
  | (Ok agent, w1) =>
      match invoke_agent agent chat w1 with
      | (Raise e, w2) => (Raise e, w2)
      | (Ok m, w2) =>
          match yield m w2 with
          | (Raise e, w3) => (Raise e, w3)
          | (Ok _, w3) =>
              match should_terminate (add_chat_message chat m) w3 with
              | (Raise e, w4) => (Raise e, w4)
              | (Ok true, w4) =>
                  (Ok (with_is_complete (add_chat_message chat m) true), w4)
              | (Ok false, w4) =>
                  invoke_loop n
                    (with_is_complete (add_chat_message chat m) false)
                    yield w4
              end
          end
      end
  end.
Proof.
  cbn [invoke_loop]. unfold bind, otherwise.
  destruct (selection_next chat w) as [[agent|e] w1]; [|reflexivity].
  destruct (invoke_agent agent chat w1) as [[m|e] w2]; [|reflexivity].
  destruct (yield m w2) as [[u|e] w3]; [|reflexivity].
  destruct (should_terminate (add_chat_message chat m) w3)
    as [[[|]|e] w4]; reflexivity.
Qed.

Section Exchange.

Variable role_text : AuthorRole -> string.

Ltac sees pre suf :=
  split;
  [ first [ apply kernels_of_agent; assumption | simpl; auto ]
  | exists pre, suf; simpl; rewrite ?app_nil_r; auto ].

(** Every run of the loop has a summary; the proof follows the loop, one
    iteration at a time. *)
Lemma invoke_loop_summary (n : nat) :
  forall (chat : AgentGroupChat) (w : World),
  exists turns evs,
    run_summary role_text n chat
      (invoke_loop n chat (print_turn role_text) w) w turns evs.
Proof.
  induction n as [|n IH]; intros chat w.
  - exists [], []. split; simpl; rewrite ?app_nil_r; auto.
    + lia.
    + intros chat' H. injection H as <-. auto.
  - rewrite invoke_loop_S.
    pose proof (selection_next_run chat w) as [T1 A1].
    destruct (selection_next chat w) as [[agent|e] w1]; simpl in T1, A1.
    2:{ exists [], [RemoteCall (selection_kernel (selection_strategy chat))
                         (history chat)].
        split; simpl; auto; try lia; try discriminate.
        - apply Forall_cons; [sees (@nil ChatMessageContent)
                                   (@nil ChatMessageContent)|apply Forall_nil].
        - eauto. }
    specialize (A1 agent eq_refl).
    pose proof (invoke_agent_run agent chat w1) as [T2 R2].
    destruct (invoke_agent agent chat w1) as [[m|e] w2]; simpl in T2, R2.
    2:{ exists [], [RemoteCall (selection_kernel (selection_strategy chat))
                         (history chat);
                    RemoteCall (agent_kernel agent) (history chat)].
        split; simpl; auto; try lia; try discriminate.
        - rewrite T2, T1, <- app_assoc. reflexivity.
        - repeat (apply Forall_cons;
                  [sees (@nil ChatMessageContent) (@nil ChatMessageContent)|]).
          apply Forall_nil.
        - eauto. }
    specialize (R2 m eq_refl). destruct R2 as [Rm Nm].
    unfold print_turn at 1. unfold log at 1.
    set (w3 := mkWorld _ _ _ (trace w2 ++ [PrintLine (turn_line role_text m)])).
    pose proof (should_terminate_run (add_chat_message chat m) w3) as T4.
    assert (Sp : spoken_by (agents chat) m) by (split; eauto).
    set (evs4 := [RemoteCall (selection_kernel (selection_strategy chat))
                       (history chat);
                  RemoteCall (agent_kernel agent) (history chat);
                  PrintLine (turn_line role_text m);
                  RemoteCall (termination_kernel (termination_strategy chat))
                       (history chat ++ [m])]%list).
    assert (T : trace (snd (should_terminate (add_chat_message chat m) w3))
                = (trace w ++ evs4)%list).
    { rewrite T4. subst w3 evs4. simpl. rewrite T2, T1.
      rewrite <- !app_assoc. reflexivity. }
    assert (Q4 : forall tl,
      Forall (fun q => In (fst q) (kernels_of chat)
                /\ exists pre suf, (m :: tl = pre ++ suf
                                    /\ snd q = history chat ++ pre)%list)
             (requests evs4)).
    { intros tl. subst evs4. simpl.
      apply Forall_cons; [sees (@nil ChatMessageContent) (m :: tl)|].
      apply Forall_cons; [sees (@nil ChatMessageContent) (m :: tl)|].
      apply Forall_cons; [sees [m] tl|]. apply Forall_nil. }
    clear T4.
    destruct (should_terminate (add_chat_message chat m) w3)
      as [[[|]|e] w4]; simpl in T.
    + exists [m], evs4. split; simpl; auto; try lia.
      * subst evs4; eauto.
      * intros chat' H. injection H as <-. simpl. split; [auto|discriminate].
    + destruct (IH (with_is_complete (add_chat_message chat m) false) w4)
        as (turns & evs & [Ht Hb Hp Hs Hq Hf Hh]).
      simpl in Hs, Hq, Hh.
      exists (m :: turns), (evs4 ++ evs)%list. split.
      * rewrite Ht, T, <- app_assoc. reflexivity.
      * simpl. lia.
      * unfold printed in *. rewrite flat_map_app, Hp. reflexivity.
      * constructor; assumption.
      * unfold requests in *. rewrite flat_map_app. apply Forall_app. split.
        { apply Q4. }
        { eapply Forall_impl; [|exact Hq]. simpl.
          intros q [Hk (pre & suf & E1 & E2)]. split; [exact Hk|].
          exists (m :: pre), suf. subst turns.
          rewrite E2, <- app_assoc. auto. }
      * intros _. subst evs4. simpl. eauto.
      * intros chat' H. destruct (Hh chat' H) as [E1 E2].
        rewrite E1, <- app_assoc. simpl. split; [reflexivity|].
        intros C. rewrite (E2 C). reflexivity.
    + exists [m], evs4. split; simpl; auto; try lia; try discriminate.
      subst evs4; eauto.
Qed.

End Exchange.

(** ** One exchange *)

Section OneExchange.

Variable role_text : AuthorRole -> string.

(** The chat at the moment the loop starts, for a chat that held [h]. *)
Lemma exchange_summary (h : list ChatMessageContent) (user_input : string)
    (w : World) :
  exists turns evs,
    run_summary role_text 20
      (add_chat_message (with_history chat0 h)
                        (mkMessage USER None user_input))
      (exchange role_text (with_history chat0 h) user_input w)
      (snd (log (PrintLine (user_line role_text user_input)) w))
      turns evs.
Proof.
  exact (invoke_loop_summary role_text 20
           (add_chat_message (with_history chat0 h)
                             (mkMessage USER None user_input))
           (snd (log (PrintLine (user_line role_text user_input)) w))).
Qed.

Lemma exchange_trace (h : list ChatMessageContent) (user_input : string)
    (w : World) (turns : list ChatMessageContent) (evs : list Event) :
  run_summary role_text 20
    (add_chat_message (with_history chat0 h) (mkMessage USER None user_input))
    (exchange role_text (with_history chat0 h) user_input w)
    (snd (log (PrintLine (user_line role_text user_input)) w)) turns evs ->
  trace (snd (exchange role_text (with_history chat0 h) user_input w))
  = (trace w ++ PrintLine (user_line role_text user_input) :: evs)%list.
Proof.
  intros [Ht _ _ _ _ _ _]. rewrite Ht. simpl.
  rewrite <- app_assoc. reflexivity.
Qed.

(** C2: whatever the history so far and whatever the remote replies, the
    exchange started by one user input appends at most 20 persona turns to
    the history and prints at most 20 of them; it issues at most 20 persona
    completion requests. *)
Theorem exchange_at_most_20_turns :
  forall (h : list ChatMessageContent) (user_input : string) (w : World),
  exists turns evs,
    trace (snd (exchange role_text (with_history chat0 h) user_input w))
    = (trace w ++ PrintLine (user_line role_text user_input) :: evs)%list
    /\ printed evs = map (turn_line role_text) turns
    /\ length (printed evs) <= 20
    /\ length turns <= 20
    /\ forall chat',
         fst (exchange role_text (with_history chat0 h) user_input w)
         = Ok chat' ->
         history chat'
         = (h ++ mkMessage USER None user_input :: turns)%list.
Proof.
  intros h user_input w.
  destruct (exchange_summary h user_input w) as (turns & evs & R).
  exists turns, evs. pose proof (exchange_trace _ _ _ _ _ R) as T.
  destruct R as [_ Hb Hp _ _ _ Hh]. repeat split; auto.
  - rewrite Hp, length_map. exact Hb.
  - intros chat' H. destruct (Hh chat' H) as [E _]. rewrite E. simpl.
    rewrite <- app_assoc. reflexivity.
Qed.

(** The cap is reached: with verdicts that are never [yes] the exchange
    prints exactly 20 turns, leaves five rounds of replies unused and ends
    not complete. *)
Example exchange_reaches_the_cap :
  let out := exchange role_value chat0 "hello" world_never_agreed in
  length (printed (trace (snd out))) = 1 + 20
  /\ length (persona_replies (snd out)) = 5
  /\ option_map is_complete
       (match fst out with Ok c => Some c | Raise _ => None end)
     = Some false.
Proof. vm_compute. repeat split. Qed.

(** C6: a generated turn is printed as one line, [# role - name: 'content'],
    with [*] for the name when the turn has none; the lines an exchange
    prints are those of the turns it generated, in order. *)
Theorem turns_printed_in_format :
  (forall (m : ChatMessageContent) (w : World),
     print_turn role_text m w
     = (Ok tt,
        mkWorld (selection_replies w) (persona_replies w)
          (termination_replies w)
          (trace w ++
           [PrintLine ("# " ++ role_text (role m) ++ " - " ++
                   match name m with
                   | Some n => if n =? "" then "*" else n
                   | None => "*"
                   end ++ ": '" ++ content m ++ "'")])%list))
  /\ forall (h : list ChatMessageContent) (user_input : string) (w : World),
     exists turns evs,
       trace (snd (exchange role_text (with_history chat0 h) user_input w))
       = (trace w ++ PrintLine (user_line role_text user_input) :: evs)%list
       /\ printed evs
          = map (fun m => "# " ++ role_text (role m) ++ " - " ++
                          name_or m "*" ++ ": '" ++ content m ++ "'") turns
       /\ Forall (spoken_by personas) turns
       /\ forall chat',
            fst (exchange role_text (with_history chat0 h) user_input w)
            = Ok chat' ->
            history chat'
            = (h ++ mkMessage USER None user_input :: turns)%list.
Proof.
  split.
  - intros m w. reflexivity.
  - intros h user_input w.
    destruct (exchange_summary h user_input w) as (turns & evs & R).
    exists turns, evs. pose proof (exchange_trace _ _ _ _ _ R) as T.
    destruct R as [_ _ Hp Hs _ _ Hh]. repeat split; auto.
    intros chat' H. destruct (Hh chat' H) as [E _]. rewrite E. simpl.
    rewrite <- app_assoc. reflexivity.
Qed.

End OneExchange.

(** ** The input loop *)

Lemma kernels_azure (h : list ChatMessageContent) (m : ChatMessageContent)
    (k : Kernel) :
  In k (kernels_of (add_chat_message (with_history chat0 h) m)) ->
  azure_only k.
Proof.
  simpl. intros H.
  repeat (destruct H as [<-|H]; [eexists; reflexivity|]). destruct H.
Qed.

Section Loop.

Variable role_text : AuthorRole -> string.

Lemma main_nil (w : World) :
  main role_text [] w = (Raise EOFError, snd (log (InputPrompt ask) w)).
Proof. reflexivity. Qed.

Lemma main_cons (user_input : string) (rest : list string) (w : World) :
  main role_text (user_input :: rest) w =
  if lower user_input =? "exit" then (Ok tt, snd (log (InputPrompt ask) w))
  else
    match exchange role_text chat0 user_input
            (snd (log (InputPrompt ask) w)) with
    | (Ok chat, w') =>
        main role_text rest (snd (log (PrintLine (status_line chat)) w'))
    | (Raise e, w') => (Raise e, w')
    end.
Proof.
  cbn [main]. unfold bind at 1. cbn [log fst snd].
  destruct (lower user_input =? "exit"); [reflexivity|].
  unfold bind at 1.
  destruct (exchange role_text chat0 user_input _) as [[chat|e] w'];
    reflexivity.
Qed.

(** The events of an exchange on a fresh chat make up a session. *)
Lemma exchange_session (user_input : string) (w : World) :
  exists turns body,
    trace (snd (exchange role_text chat0 user_input
                  (snd (log (InputPrompt ask) w))))
    = (trace w ++ InputPrompt ask :: PrintLine (user_line role_text user_input)
                  :: body)%list
    /\ printed body = map (turn_line role_text) turns
    /\ length turns <= 20
    /\ Forall (spoken_by personas) turns
    /\ Forall (sees_only user_input turns) (requests body)
    /\ (exists tl,
          body = RemoteCall (_create_kernel_with_chat_completion "selection")
                      [mkMessage USER None user_input] :: tl)
    /\ forall chat',
         fst (exchange role_text chat0 user_input
                (snd (log (InputPrompt ask) w)))
         = Ok chat' ->
         history chat' = mkMessage USER None user_input :: turns
         /\ (is_complete chat' = false -> length turns = 20).
Proof.
  destruct (exchange_summary role_text [] user_input
              (snd (log (InputPrompt ask) w))) as (turns & body & R).
  pose proof (exchange_trace _ _ _ _ _ _ R) as T.
  change (with_history chat0 []) with chat0 in *.
  exists turns, body. destruct R as [_ Hb Hp Hs Hq Hf Hh].
  repeat split; auto.
  - rewrite T. simpl. rewrite <- app_assoc. reflexivity.
  - eapply Forall_impl; [|exact Hq]. intros q [Hk Hpre].
    split; [exact (kernels_azure [] _ _ Hk)|exact Hpre].
  - apply Hf. lia.
  - apply (Hh chat' H).
  - apply (Hh chat' H).
Qed.

(** The trace of [main] is a sequence of sessions, one per line read, and
    possibly a last prompt, answered by [exit] or by the end of the input. *)
Lemma main_sessions (stdin : list string) :
  forall w : World,
  exists (sessions : list (string * list Event)) (last : list Event)
         (unread : list string),
    trace (snd (main role_text stdin w))
    = (trace w ++ concat (map snd sessions) ++ last)%list
    /\ stdin = (map fst sessions ++ unread)%list
    /\ Forall (fun s => session_ok role_text (fst s) (snd s)) sessions
    /\ (last = [] \/ last = [InputPrompt ask]).
Proof.
  induction stdin as [|user_input rest IH]; intros w.
  - exists [], [InputPrompt ask], []. rewrite main_nil. simpl. auto.
  - rewrite main_cons. destruct (lower user_input =? "exit").
    + exists [], [InputPrompt ask], (user_input :: rest). simpl. auto.
    + destruct (exchange_session user_input w)
        as (turns & body & T & Hp & Hb & Hs & Hq & _ & _).
      destruct (exchange role_text chat0 user_input _) as [[chat|e] w'];
        simpl in T.
      * destruct (IH (snd (log (PrintLine (status_line chat)) w')))
          as (sessions & last & unread & T' & E & F & L).
        exists ((user_input,
                 InputPrompt ask :: PrintLine (user_line role_text user_input)
                 :: body ++ [PrintLine (status_line chat)]) :: sessions)%list,
               last, unread.
        repeat split; auto.
        { rewrite T'. simpl. rewrite T. rewrite <- !app_assoc. simpl.
          rewrite <- ?app_assoc. reflexivity. }
        { simpl. rewrite E. reflexivity. }
        { constructor; [|exact F]. simpl.
          exists turns, body, [PrintLine (status_line chat)].
          repeat split; auto. right. eexists. reflexivity. }
      * exists [(user_input,
                 InputPrompt ask :: PrintLine (user_line role_text user_input)
                 :: body ++ [])%list], [], rest.
        repeat split; auto.
        { simpl. rewrite T, !app_nil_r. reflexivity. }
        { constructor; [|constructor]. simpl.
          exists turns, body, []. repeat split; auto. }
Qed.

End Loop.

Section Sessions.

Variable role_text : AuthorRole -> string.

Lemma requests_app (a b : list Event) :
  requests (a ++ b) = (requests a ++ requests b)%list.
Proof. apply flat_map_app. Qed.

Lemma printed_app (a b : list Event) :
  printed (a ++ b) = (printed a ++ printed b)%list.
Proof. apply flat_map_app. Qed.

(** The requests and the lines of a session are those of its exchange, the
    echo and the status line apart. *)
Lemma session_requests (line : string) (es : list Event) :
  session_ok role_text line es ->
  exists turns,
    length turns <= 20
    /\ Forall (spoken_by personas) turns
    /\ Forall (sees_only line turns) (requests es)
    /\ exists status,
         printed es
         = (user_line role_text line :: map (turn_line role_text) turns
              ++ status)%list
         /\ (status = []
             \/ exists b, status = ["# IS COMPLETE: " ++ str_bool b]).
Proof.
  intros (turns & body & tail & -> & Htail & Hp & Hb & Hs & Hq).
  exists turns. split; [exact Hb|]. split; [exact Hs|].
  assert (R : requests tail = [])
    by (destruct Htail as [->|[b ->]]; reflexivity).
  split.
  - simpl. rewrite requests_app, R, app_nil_r. exact Hq.
  - exists (printed tail). split.
    + simpl. rewrite printed_app, Hp. reflexivity.
    + destruct Htail as [->|[b ->]]; [left; reflexivity|].
      right. exists b. reflexivity.
Qed.

Lemma main_trace (stdin : list string) (w : World) :
  exists evs,
    trace (snd (main role_text stdin w))
    = (trace w ++ InputPrompt ask :: evs)%list
    /\ Forall (fun q => azure_only (fst q)) (requests evs).
Proof.
  destruct stdin as [|user_input rest].
  - exists []. rewrite main_nil. split; [reflexivity|constructor].
  - rewrite main_cons. destruct (lower user_input =? "exit").
    + exists []. split; [reflexivity|constructor].
    + destruct (exchange_session role_text user_input w)
        as (turns & body & T & _ & _ & _ & Hq & _ & _).
      assert (A : Forall (fun q => azure_only (fst q)) (requests body)).
      { eapply Forall_impl; [|exact Hq]. intros q [Hk _]. exact Hk. }
      destruct (exchange role_text chat0 user_input _) as [[chat|e] w'];
        simpl in T.
      * destruct (main_sessions role_text rest
                    (snd (log (PrintLine (status_line chat)) w')))
          as (sessions & last & unread & T' & _ & F & L).
        exists (PrintLine (user_line role_text user_input) :: body
                ++ PrintLine (status_line chat)
                :: concat (map snd sessions) ++ last)%list.
        split.
        { rewrite T'. simpl. rewrite T, <- !app_assoc. simpl.
          rewrite <- ?app_assoc. reflexivity. }
        { simpl. rewrite requests_app. apply Forall_app. split; [exact A|].
          simpl. rewrite requests_app. apply Forall_app. split.
          - clear T'. induction F as [|s l Hs _ IHl]; [constructor|].
            simpl. rewrite requests_app. apply Forall_app.
            split; [|exact IHl].
            destruct (session_requests _ _ Hs) as (t & _ & _ & Q & _).
            eapply Forall_impl; [|exact Q]. intros q [Hk _]. exact Hk.
          - destruct L as [->| ->]; constructor. }
      * exists (PrintLine (user_line role_text user_input) :: body).
        split; [exact T|exact A].
Qed.

(** C4: a line that matches [exit] whatever its letter case ends the session
    there: [main] returns, no remote request has been issued, nothing is
    printed after the prompt and the scripts of replies are untouched.  No
    other line ends the session at that point. *)
Theorem exit_ends_session :
  forall (user_input : string) (rest : list string) (w : World),
    matches_ignoring_case user_input "exit" <->
    main role_text (user_input :: rest) w
    = (Ok tt,
       mkWorld (selection_replies w) (persona_replies w)
               (termination_replies w) (trace w ++ [InputPrompt ask])%list).
Proof.
  intros user_input rest w. unfold matches_ignoring_case.
  change (lower "exit") with "exit". rewrite main_cons. split.
  - intros H. apply String.eqb_eq in H. rewrite H. reflexivity.
  - destruct (lower user_input =? "exit") eqn:E;
      [intros _; apply String.eqb_eq; exact E|].
    destruct (exchange_session role_text user_input w)
      as (turns & body & T & _).
    destruct (exchange role_text chat0 user_input _) as [[chat|e] w'];
      simpl in T; [|discriminate].
    destruct (main_trace rest (snd (log (PrintLine (status_line chat)) w')))
      as (evs & T' & _).
    intros H. rewrite H in T'. simpl in T'. rewrite T in T'.
    apply (f_equal (@length Event)) in T'.
    repeat (rewrite length_app in T'; simpl in T'). lia.
Qed.

(** C5: for a line that is not the exit keyword, the chat's history holds
    exactly the user's turn, tagged with the user role, when the exchange
    begins: the first remote request, the selection, carries that history,
    and every request of the exchange carries the user's turn first. *)
Theorem user_turn_appended_before_exchange :
  forall (user_input : string) (rest : list string) (w : World),
    ~ matches_ignoring_case user_input "exit" ->
    history (add_chat_message chat0 (mkMessage USER None user_input))
    = [mkMessage USER None user_input]
    /\ exists turns body evs,
         trace (snd (main role_text (user_input :: rest) w))
         = (trace w ++ InputPrompt ask
                    :: PrintLine (user_line role_text user_input)
                    :: body ++ evs)%list
         /\ (exists tl,
               body
               = RemoteCall (_create_kernel_with_chat_completion "selection")
                            [mkMessage USER None user_input] :: tl)
         /\ Forall (sees_only user_input turns) (requests body).
Proof.
  intros user_input rest w H. split; [reflexivity|].
  rewrite main_cons.
  destruct (lower user_input =? "exit") eqn:E.
  { apply String.eqb_eq in E. contradiction. }
  destruct (exchange_session role_text user_input w)
    as (turns & body & T & _ & _ & _ & Hq & Hf & _).
  destruct (exchange role_text chat0 user_input _) as [[chat|e] w'];
    simpl in T.
  - destruct (main_trace rest (snd (log (PrintLine (status_line chat)) w')))
      as (evs & T' & _).
    exists turns, body,
      (PrintLine (status_line chat) :: InputPrompt ask :: evs).
    split; [|split; assumption].
    rewrite T'. simpl. rewrite T, <- !app_assoc. simpl.
    rewrite <- ?app_assoc. reflexivity.
  - exists turns, body, []. rewrite app_nil_r. auto.
Qed.

(** C7: when the exchange for a user input ends, by a verdict or by the cap,
    [main] prints one line with the chat's completion status,
    [# IS COMPLETE: True] or [# IS COMPLETE: False], and goes on with the
    rest of the input: the next event is the prompt for the next line.
    A status of [False] means the cap of 20 turns was reached. *)
Theorem status_line_after_exchange :
  forall (user_input : string) (rest : list string) (w : World)
         (chat' : AgentGroupChat) (w' : World),
    ~ matches_ignoring_case user_input "exit" ->
    exchange role_text chat0 user_input
      (snd (log (InputPrompt "Ask a question or type 'exit' to quit: ") w))
    = (Ok chat', w') ->
    main role_text (user_input :: rest) w
    = main role_text rest
        (snd (log (PrintLine (if is_complete chat'
                              then "# IS COMPLETE: True"
                              else "# IS COMPLETE: False"))
                  w'))
    /\ (exists evs,
          trace (snd (main role_text (user_input :: rest) w))
          = (trace w'
             ++ PrintLine (if is_complete chat'
                           then "# IS COMPLETE: True"
                           else "# IS COMPLETE: False")
             :: InputPrompt "Ask a question or type 'exit' to quit: "
             :: evs)%list)
    /\ exists turns,
         history chat' = mkMessage USER None user_input :: turns
         /\ length turns <= 20
         /\ (is_complete chat' = false -> length turns = 20).
Proof.
  intros user_input rest w chat' w' H X.
  assert (S : status_line chat'
              = if is_complete chat'
                then "# IS COMPLETE: True" else "# IS COMPLETE: False")
    by (unfold status_line; destruct (is_complete chat'); reflexivity).
  change "Ask a question or type 'exit' to quit: " with ask in *.
  rewrite <- S.
  assert (M : main role_text (user_input :: rest) w
              = main role_text rest
                  (snd (log (PrintLine (status_line chat')) w'))).
  { rewrite main_cons.
    destruct (lower user_input =? "exit") eqn:E.
    { apply String.eqb_eq in E. contradiction. }
    rewrite X. reflexivity. }
  split; [exact M|]. split.
  - rewrite M.
    destruct (main_trace rest (snd (log (PrintLine (status_line chat')) w')))
      as (evs & T' & _).
    exists evs. rewrite T'. simpl. rewrite <- app_assoc. reflexivity.
  - destruct (exchange_session role_text user_input w)
      as (turns & body & _ & _ & Hb & _ & _ & _ & Hh).
    rewrite X in Hh. destruct (Hh chat' eq_refl) as [E1 E2].
    exists turns. auto.
Qed.

(** C8: every iteration of the input loop works on a chat built anew.  The
    trace of [main] splits into sessions, one per line read; in the session
    of a line every remote request carries that line as its only user turn,
    followed by persona turns generated and printed in this same session, at
    most 20 of them.  Nothing of an earlier session is in any history. *)
Theorem history_not_carried_over :
  forall (stdin : list string) (w : World),
  exists (sessions : list (string * list Event)) (last : list Event)
         (unread : list string),
    trace (snd (main role_text stdin w))
    = (trace w ++ concat (map snd sessions) ++ last)%list
    /\ stdin = (map fst sessions ++ unread)%list
    /\ requests last = []
    /\ Forall
         (fun s =>
            exists turns status,
              printed (snd s)
              = (user_line role_text (fst s)
                   :: map (turn_line role_text) turns ++ status)%list
              /\ length turns <= 20
              /\ Forall (fun m => role m = ASSISTANT) turns
              /\ Forall
                   (fun q =>
                      exists pre suf,
                        turns = (pre ++ suf)%list
                        /\ snd q = mkMessage USER None (fst s) :: pre)
                   (requests (snd s)))
         sessions.
Proof.
  intros stdin w.
  destruct (main_sessions role_text stdin w)
    as (sessions & last & unread & T & E & F & L).
  exists sessions, last, unread. repeat split; auto.
  - destruct L as [->| ->]; reflexivity.
  - eapply Forall_impl; [|exact F]. intros [line es] Hs. simpl in *.
    destruct (session_requests _ _ Hs)
      as (turns & Hb & Hsp & Hq & status & Hp & _).
    exists turns, status. repeat split; auto.
    + eapply Forall_impl; [|exact Hsp]. intros m [Hr _]. exact Hr.
    + eapply Forall_impl; [|exact Hq]. intros q [_ Hpre]. exact Hpre.
Qed.

(** C9: the kernel factory registers an Azure chat completion service for
    every service id; [main] makes no use of the backend selected from the
    configuration, so two valid configurations give the same run, and every
    remote request of a run goes through an Azure service. *)
Theorem backend_choice_unused :
  (forall service_id : string,
     services (_create_kernel_with_chat_completion service_id)
     = [AzureChatCompletion service_id])
  /\ (forall (c1 c2 : option string) (s1 s2 : Service)
             (stdin : list string) (w : World),
        selectedService c1 = Ok s1 ->
        selectedService c2 = Ok s2 ->
        program role_text c1 stdin w = program role_text c2 stdin w)
  /\ (forall (c : option string) (stdin : list string) (w : World),
      exists evs,
        trace (snd (program role_text c stdin w)) = (trace w ++ evs)%list
        /\ Forall (fun q => azure_only (fst q)) (requests evs)).
Proof.
  split; [reflexivity|]. split.
  - intros c1 c2 s1 s2 stdin w H1 H2. unfold program, bind, lift.
    rewrite H1, H2. reflexivity.
  - intros c stdin w. unfold program, bind, lift.
    destruct (selectedService c) as [s|e].
    + destruct (main_trace stdin w) as (evs & T & A).
      exists (InputPrompt ask :: evs). split; [exact T|exact A].
    + exists []. simpl. rewrite app_nil_r. split; [reflexivity|constructor].
Qed.

End Sessions.

(** ** The theorems at concrete inputs *)

Lemma exit_ends_session_witness :
  matches_ignoring_case "EXIT" "exit"
  /\ main role_value ["EXIT"; "hello"] world_agreed
     = (Ok tt,
        mkWorld (selection_replies world_agreed)
                (persona_replies world_agreed)
                (termination_replies world_agreed)
                (trace world_agreed ++ [InputPrompt ask])%list).
Proof.
  split; [reflexivity|].
  apply (proj1 (exit_ends_session role_value "EXIT" ["hello"] world_agreed)).
  reflexivity.
Defined.

Lemma user_turn_appended_before_exchange_witness :
  ~ matches_ignoring_case "hello" "exit"
  /\ history (add_chat_message chat0 (mkMessage USER None "hello"))
     = [mkMessage USER None "hello"]
  /\ exists turns body evs,
       trace (snd (main role_value ["hello"] world_agreed))
       = (trace world_agreed
          ++ InputPrompt ask :: PrintLine (user_line role_value "hello")
          :: body ++ evs)%list
       /\ (exists tl,
             body = RemoteCall (_create_kernel_with_chat_completion "selection")
                         [mkMessage USER None "hello"] :: tl)
       /\ Forall (sees_only "hello" turns) (requests body).
Proof.
  assert (H : ~ matches_ignoring_case "hello" "exit")
    by (intros H; vm_compute in H; discriminate H).
  split; [exact H|].
  exact (user_turn_appended_before_exchange role_value "hello" []
           world_agreed H).
Defined.

Lemma status_line_after_exchange_witness :
  ~ matches_ignoring_case "hello" "exit"
  /\ exchange role_value chat0 "hello"
       (snd (log (InputPrompt "Ask a question or type 'exit' to quit: ")
                 world_agreed))
     = (Ok agreed_chat, agreed_world)
  /\ is_complete agreed_chat = true
  /\ main role_value ["hello"; "exit"] world_agreed
     = main role_value ["exit"]
         (snd (log (PrintLine "# IS COMPLETE: True") agreed_world))
  /\ (exists evs,
        trace (snd (main role_value ["hello"; "exit"] world_agreed))
        = (trace agreed_world
           ++ PrintLine "# IS COMPLETE: True"
           :: InputPrompt "Ask a question or type 'exit' to quit: "
           :: evs)%list)
  /\ exists turns,
       history agreed_chat = mkMessage USER None "hello" :: turns
       /\ length turns <= 20
       /\ (is_complete agreed_chat = false -> length turns = 20).
Proof.
  assert (H : ~ matches_ignoring_case "hello" "exit")
    by (intros H; vm_compute in H; discriminate H).
  assert (X : exchange role_value chat0 "hello"
                (snd (log (InputPrompt
                             "Ask a question or type 'exit' to quit: ")
                          world_agreed))
              = (Ok agreed_chat, agreed_world)) by reflexivity.
  split; [exact H|]. split; [exact X|]. split; [reflexivity|].
  exact (status_line_after_exchange role_value "hello" ["exit"] world_agreed
           agreed_chat agreed_world H X).
Defined.

Lemma backend_choice_unused_witness :
  selectedService (Some "OpenAI") = Ok OpenAI
  /\ selectedService None = Ok AzureOpenAI
  /\ program role_value (Some "OpenAI") ["hello"] world_agreed
     = program role_value None ["hello"] world_agreed.
Proof.
  split; [reflexivity|]. split; [reflexivity|].
  apply (proj1 (proj2 (backend_choice_unused role_value))
           (Some "OpenAI") None OpenAI AzureOpenAI ["hello"] world_agreed);
    reflexivity.
Defined.

(** ** Runs of the model *)

(** One session in which the concierge answers and the plan is agreed: the
    lines printed, in order. *)
Example session_agreed_output :
  printed (trace (snd (main role_value ["hello"; "Exit"] world_agreed)))
  = ["# user: 'hello'"; "# assistant - Concierge: 'Welcome!'";
     "# IS COMPLETE: True"]
  /\ fst (main role_value ["hello"; "Exit"] world_agreed) = Ok tt.
Proof. split; reflexivity. Qed.

(** Two sessions: the requests of the second carry nothing of the first. *)
Example second_session_starts_afresh :
  map snd
    (requests
       (trace (snd (main role_value ["first"; "second"]
                      (mkWorld [reply "Concierge"; reply "Concierge"]
                               [Some "one"; Some "two"]
                               [reply "yes"; reply "yes"] [])))))
  = [ [mkMessage USER None "first"];
      [mkMessage USER None "first"];
      [mkMessage USER None "first";
       mkMessage ASSISTANT (Some "Concierge") "one"];
      [mkMessage USER None "second"];
      [mkMessage USER None "second"];
      [mkMessage USER None "second";
       mkMessage ASSISTANT (Some "Concierge") "two"] ].
Proof. reflexivity. Qed.

(** A configuration that names no backend stops the program at import. *)
Example unknown_backend_raises :
  fst (program role_value (Some "bedrock") ["hello"] world_agreed)
  = Raise ValueError.
Proof. reflexivity. Qed.

(** * Further properties of the script *)

(** ** The two keywords *)

Lemma lower_char_e (c : ascii) :
  lower_char c = "e"%char -> c = "e"%char \/ c = "E"%char.
Proof.
  destruct c as [[] [] [] [] [] [] [] []]; vm_compute; intros H;
    try discriminate H; auto.
Qed.

Lemma lower_char_x (c : ascii) :
  lower_char c = "x"%char -> c = "x"%char \/ c = "X"%char.
Proof.
  destruct c as [[] [] [] [] [] [] [] []]; vm_compute; intros H;
    try discriminate H; auto.
Qed.

Lemma lower_char_i (c : ascii) :
  lower_char c = "i"%char -> c = "i"%char \/ c = "I"%char.
Proof.
  destruct c as [[] [] [] [] [] [] [] []]; vm_compute; intros H;
    try discriminate H; auto.
Qed.

Lemma lower_char_t (c : ascii) :
  lower_char c = "t"%char -> c = "t"%char \/ c = "T"%char.
Proof.
  destruct c as [[] [] [] [] [] [] [] []]; vm_compute; intros H;
    try discriminate H; auto.
Qed.

(** The sixteen spellings that lower-case to [exit]. *)
Lemma lower_exit_spellings (s : string) :
  lower s = "exit" <->
  In s ["exit"; "exiT"; "exIt"; "exIT"; "eXit"; "eXiT"; "eXIt"; "eXIT";
        "Exit"; "ExiT"; "ExIt"; "ExIT"; "EXit"; "EXiT"; "EXIt"; "EXIT"].
Proof.
  split.
  - destruct s as [|c1 [|c2 [|c3 [|c4 [|c5 s]]]]]; simpl; try discriminate.
    intros H. injection H as H1 H2 H3 H4.
    destruct (lower_char_e _ H1), (lower_char_x _ H2), (lower_char_i _ H3),
      (lower_char_t _ H4); subst; tauto.
  - simpl. intros H.
    repeat (destruct H as [H|H]; [subst; reflexivity|]). destruct H.
Qed.

(** X1: the termination verdict is "stop" on exactly eight responses, the
    spellings of [yes] in either letter case; a blank or a full stop around
    the word makes the verdict "continue". *)
Theorem termination_stops_on_eight_spellings :
  forall (m : ChatMessageContent) (rest : list ChatMessageContent),
    termination_result_parser (mkResult (m :: rest)) = Ok true
    <-> In (content m)
           ["yes"; "yeS"; "yEs"; "yES"; "Yes"; "YeS"; "YEs"; "YES"].
Proof.
  intros m rest. rewrite <- lower_yes_spellings.
  unfold termination_result_parser, str. simpl. split.
  - intros H. injection H as H. apply String.eqb_eq. exact H.
  - intros H. apply String.eqb_eq in H. rewrite H. reflexivity.
Qed.

Section Keywords.

Variable role_text : AuthorRole -> string.

(** X2: [main] returns right after the prompt on exactly sixteen lines, the
    spellings of [exit] in either letter case; the line is not trimmed, so
    [exit] with a blank before or after it starts an exchange. *)
Theorem main_exits_on_sixteen_spellings :
  forall (user_input : string) (rest : list string) (w : World),
    main role_text (user_input :: rest) w
    = (Ok tt, snd (log (InputPrompt ask) w))
    <-> In user_input
           ["exit"; "exiT"; "exIt"; "exIT"; "eXit"; "eXiT"; "eXIt"; "eXIT";
            "Exit"; "ExiT"; "ExIt"; "ExIT"; "EXit"; "EXiT"; "EXIt"; "EXIT"].
Proof.
  intros user_input rest w. rewrite <- lower_exit_spellings.
  rewrite main_cons. split.
  - destruct (lower user_input =? "exit") eqn:E;
      [intros _; apply String.eqb_eq; exact E|].
    destruct (exchange_session role_text user_input w)
      as (turns & body & T & _).
    destruct (exchange role_text chat0 user_input _) as [[chat|e] w'];
      simpl in T; [|discriminate].
    destruct (main_trace role_text rest
                (snd (log (PrintLine (status_line chat)) w')))
      as (evs & T' & _).
    intros H. rewrite H in T'. simpl in T'. rewrite T in T'.
    apply (f_equal (@length Event)) in T'.
    repeat (rewrite length_app in T'; simpl in T'). lia.
  - intros H. apply String.eqb_eq in H. rewrite H. reflexivity.
Qed.

(** X3: [main] returns normally only through the exit keyword: when it
    does, some line of the input is the keyword and no line before it is. *)
Theorem main_returns_only_on_exit :
  forall (stdin : list string) (w : World),
    fst (main role_text stdin w) = Ok tt ->
    exists pre line post,
      stdin = (pre ++ line :: post)%list
      /\ lower line = "exit"
      /\ Forall (fun l => lower l <> "exit") pre.
Proof.
  induction stdin as [|user_input rest IH]; intros w H.
  - rewrite main_nil in H. discriminate H.
  - rewrite main_cons in H.
    destruct (lower user_input =? "exit") eqn:E.
    + apply String.eqb_eq in E. exists [], user_input, rest. auto.
    + apply String.eqb_neq in E.
      destruct (exchange role_text chat0 user_input _) as [[chat|e] w'];
        [|discriminate H].
      destruct (IH _ H) as (pre & line & post & -> & L & F).
      exists (user_input :: pre), line, post. auto.
Qed.

(** X4: the exit keyword stops the reading: the lines that follow it have
    no effect on the run. *)
Theorem lines_after_exit_unread :
  forall (pre : list string) (line : string) (post : list string)
         (w : World),
    lower line = "exit" ->
    main role_text (pre ++ line :: post) w = main role_text (pre ++ [line]) w.
Proof.
  induction pre as [|user_input pre IH]; intros line post w H.
  - cbn [app]. rewrite !main_cons. apply String.eqb_eq in H. rewrite H.
    reflexivity.
  - cbn [app]. rewrite !main_cons.
    destruct (lower user_input =? "exit"); [reflexivity|].
    destruct (exchange role_text chat0 user_input _) as [[chat|e] w'];
      [|reflexivity].
    apply IH. exact H.
Qed.

End Keywords.

Lemma main_returns_only_on_exit_witness :
  fst (main role_value ["hello"; "Exit"; "more"] world_agreed) = Ok tt
  /\ exists pre line post,
       ["hello"; "Exit"; "more"] = (pre ++ line :: post)%list
       /\ lower line = "exit"
       /\ Forall (fun l => lower l <> "exit") pre.
Proof.
  assert (H : fst (main role_value ["hello"; "Exit"; "more"] world_agreed)
              = Ok tt) by reflexivity.
  split; [exact H|].
  exact (main_returns_only_on_exit role_value ["hello"; "Exit"; "more"]
           world_agreed H).
Defined.

Lemma lines_after_exit_unread_witness :
  lower "EXIT" = "exit"
  /\ main role_value (["hello"] ++ "EXIT" :: ["more"; "lines"]) world_agreed
     = main role_value (["hello"] ++ ["EXIT"]) world_agreed.
Proof.
  split; [reflexivity|].
  apply (lines_after_exit_unread role_value ["hello"] "EXIT"
           ["more"; "lines"] world_agreed).
  reflexivity.
Defined.

(** ** One iteration of the chat's loop, on the scripts *)

Section Iterations.

Variable role_text : AuthorRole -> string.

(** An iteration either fails, having issued one to three requests, or
    takes one reply from each script, generates a turn and gets a verdict;
    on "continue" the loop goes on from there. *)
Lemma iteration_cases (n : nat) (chat : AgentGroupChat) (w : World) :
  (exists e evs,
     fst (invoke_loop (S n) chat (print_turn role_text) w) = Raise e
     /\ trace (snd (invoke_loop (S n) chat (print_turn role_text) w))
        = (trace w ++ evs)%list
     /\ length (requests evs) <= 3)
  \/ exists a text r_s r_t b w4,
       selection_replies w = Some r_s :: selection_replies w4
       /\ persona_replies w = Some text :: persona_replies w4
       /\ termination_replies w = Some r_t :: termination_replies w4
       /\ find_agent (agents chat)
            (selection_parser (selection_strategy chat) r_s) = Some a
       /\ termination_parser (termination_strategy chat) r_t = Ok b
       /\ trace w4
          = (trace w
             ++ [RemoteCall (selection_kernel (selection_strategy chat))
                            (history chat);
                 RemoteCall (agent_kernel a) (history chat);
                 PrintLine (turn_line role_text
                              (mkMessage ASSISTANT (Some (agent_name a)) text));
                 RemoteCall (termination_kernel (termination_strategy chat))
                            (history chat
                             ++ [mkMessage ASSISTANT (Some (agent_name a))
                                           text])])%list
       /\ invoke_loop (S n) chat (print_turn role_text) w
          = if b
            then (Ok (with_is_complete
                        (add_chat_message chat
                           (mkMessage ASSISTANT (Some (agent_name a)) text))
                        true), w4)
            else invoke_loop n
                   (with_is_complete
                      (add_chat_message chat
                         (mkMessage ASSISTANT (Some (agent_name a)) text))
                      false)
                   (print_turn role_text) w4.
Proof.
  rewrite invoke_loop_S.
  unfold selection_next, invoke_agent, should_terminate, print_turn.
  unfold bind, log, lift, ret, raise, otherwise.
  unfold next_selection_reply, next_persona_reply, next_termination_reply.
  unfold completions.
  cbn [selection_replies persona_replies termination_replies trace fst snd].
  destruct (selection_replies w) as [|[r_s|] rest_s] eqn:Es; cbn.
  1,3: left; eexists; eexists; split; [reflexivity|];
       split; [reflexivity|simpl; lia].
  destruct (value r_s) as [|m_s tl_s] eqn:Vs; cbn.
  1: left; eexists; eexists; split; [reflexivity|];
     split; [reflexivity|simpl; lia].
  destruct (find_agent (agents chat) _) as [a|] eqn:Ea; cbn.
  2: left; eexists; eexists; split; [reflexivity|];
     split; [reflexivity|simpl; lia].
  destruct (persona_replies w) as [|[text|] rest_p] eqn:Ep; cbn.
  1,3: left; eexists; eexists; split; [reflexivity|];
       split; [rewrite <- app_assoc; reflexivity|simpl; lia].
  destruct (termination_replies w) as [|[r_t|] rest_t] eqn:Et; cbn.
  1,3: left; eexists; eexists; split; [reflexivity|];
       split; [rewrite <- !app_assoc; reflexivity|simpl; lia].
  destruct (value r_t) as [|m_t tl_t] eqn:Vt; cbn.
  1: left; eexists; eexists; split; [reflexivity|];
     split; [rewrite <- !app_assoc; reflexivity|simpl; lia].
  destruct (termination_parser (termination_strategy chat) r_t)
    as [b|e] eqn:Eb; cbn.
  2: left; eexists; eexists; split; [reflexivity|];
     split; [rewrite <- !app_assoc; reflexivity|simpl; lia].
  right.
  exists a, text, r_s, r_t, b,
    (mkWorld rest_s rest_p rest_t
       (trace w
        ++ [RemoteCall (selection_kernel (selection_strategy chat))
                       (history chat);
            RemoteCall (agent_kernel a) (history chat);
            PrintLine (turn_line role_text
                         (mkMessage ASSISTANT (Some (agent_name a)) text));
            RemoteCall (termination_kernel (termination_strategy chat))
                       (history chat
                        ++ [mkMessage ASSISTANT (Some (agent_name a))
                                      text])])%list).
  cbn [selection_replies persona_replies termination_replies trace].
  repeat (split; [reflexivity || assumption|]).
  rewrite <- !app_assoc. cbn [app]. destruct b; reflexivity.
Qed.

(** Whatever the outcome, a loop of [n] iterations issues at most [3 * n]
    requests. *)
Lemma invoke_loop_request_bound (n : nat) :
  forall (chat : AgentGroupChat) (w : World),
  exists evs,
    trace (snd (invoke_loop n chat (print_turn role_text) w))
    = (trace w ++ evs)%list
    /\ length (requests evs) <= 3 * n.
Proof.
  induction n as [|n IH]; intros chat w.
  - exists []. simpl. rewrite app_nil_r. auto.
  - destruct (iteration_cases n chat w)
      as [(e & evs & _ & T & B)
         |(a & text & r_s & r_t & b & w4 & _ & _ & _ & _ & _ & T & E)].
    + exists evs. split; [exact T|lia].
    + rewrite E. destruct b.
      * eexists. split; [exact T|]. simpl. lia.
      * destruct (IH (with_is_complete
                        (add_chat_message chat
                           (mkMessage ASSISTANT (Some (agent_name a)) text))
                        false) w4) as (evs & T' & B).
        eexists. split.
        { rewrite T', T, <- app_assoc. reflexivity. }
        { rewrite requests_app, length_app. simpl. lia. }
Qed.

(** A loop that returns after generating [k] turns has taken the first [k]
    replies of each script and issued [3 * k] requests; either the last
    verdict was "stop" and the earlier ones "continue", or all [n]
    iterations were used and every verdict was "continue". *)
Lemma invoke_loop_replies (n : nat) :
  forall (chat chat' : AgentGroupChat) (w w' : World),
    invoke_loop n chat (print_turn role_text) w = (Ok chat', w') ->
    exists k evs,
      k <= n
      /\ length (history chat') = length (history chat) + k
      /\ selection_replies w' = skipn k (selection_replies w)
      /\ persona_replies w' = skipn k (persona_replies w)
      /\ termination_replies w' = skipn k (termination_replies w)
      /\ trace w' = (trace w ++ evs)%list
      /\ length (requests evs) = 3 * k
      /\ ((is_complete chat' = true
           /\ exists front r,
                firstn k (termination_replies w) = (front ++ [Some r])%list
                /\ termination_parser (termination_strategy chat) r = Ok true
                /\ Forall (fun x => exists r',
                             x = Some r'
                             /\ termination_parser (termination_strategy chat)
                                  r' = Ok false) front)
          \/ (k = n
              /\ (0 < n -> is_complete chat' = false)
              /\ Forall (fun x => exists r',
                           x = Some r'
                           /\ termination_parser (termination_strategy chat)
                                r' = Ok false)
                        (firstn k (termination_replies w)))).
Proof.
  induction n as [|n IH]; intros chat chat' w w' H.
  - injection H as <- <-. exists 0, []. simpl. rewrite app_nil_r.
    repeat split; auto. right. repeat split; auto. lia.
  - destruct (iteration_cases n chat w)
      as [(e & evs & F & _)
         |(a & text & r_s & r_t & b & w4 & Es & Ep & Et & _ & Eb & T & E)].
    { rewrite H in F. discriminate F. }
    rewrite E in H. destruct b.
    + injection H as <- <-. eexists 1, _. rewrite Es, Ep, Et.
      cbn [skipn firstn].
      split; [lia|].
      split; [simpl; rewrite length_app; simpl; lia|].
      split; [reflexivity|]. split; [reflexivity|]. split; [reflexivity|].
      split; [exact T|]. split; [reflexivity|].
      left. split; [reflexivity|]. exists [], r_t. auto.
    + destruct (IH _ _ _ _ H)
        as (k & evs & Hk & Hh & Ss & Sp & St & T' & R & V).
      cbn [termination_strategy with_is_complete add_chat_message
           with_history] in V.
      exists (S k). eexists. rewrite Es, Ep, Et. cbn [skipn firstn].
      split; [lia|].
      split; [rewrite Hh; simpl; rewrite length_app; simpl; lia|].
      split; [exact Ss|]. split; [exact Sp|]. split; [exact St|].
      split; [rewrite T', T, <- app_assoc; reflexivity|].
      split; [rewrite requests_app, length_app, R; simpl; lia|].
      destruct V as [(C & front & r & Ef & Er & Ff)|(-> & C & Ff)].
      * left. split; [exact C|].
        exists (Some r_t :: front), r. rewrite Ef.
        split; [reflexivity|]. split; [exact Er|].
        constructor; [|exact Ff]. exists r_t. auto.
      * right. split; [reflexivity|]. split.
        { intros _. destruct n as [|n'].
          - injection H as <- _. reflexivity.
          - apply C. lia. }
        { constructor; [|exact Ff]. exists r_t. auto. }
Qed.

End Iterations.

(** ** The verdicts and the cost of an exchange *)

Lemma termination_parser_stop (r : FunctionResult) :
  termination_result_parser r = Ok true -> stops (Some r).
Proof.
  destruct r as [[|m rest]]; unfold termination_result_parser, str; simpl;
    intros H; [discriminate H|].
  injection H as H. apply String.eqb_eq in H. exists m, rest. auto.
Qed.

Lemma termination_parser_continue (r : FunctionResult) :
  termination_result_parser r = Ok false -> continues (Some r).
Proof.
  destruct r as [[|m rest]]; unfold termination_result_parser, str; simpl;
    intros H; [discriminate H|].
  injection H as H. apply String.eqb_neq in H. exists m, rest. auto.
Qed.

Section Verdicts.

Variable role_text : AuthorRole -> string.

(** X5: an exchange that returns stopped at the first "stop" verdict.  With
    [k] the number of turns it generated, it took the first [k] termination
    replies; either the chat is complete, the last of them lower-cases to
    [yes] and none before it does, or the chat is not complete, [k] is 20
    and none of the 20 does. *)
Theorem exchange_stops_at_first_yes :
  forall (h : list ChatMessageContent) (user_input : string)
         (w w' : World) (chat' : AgentGroupChat),
    exchange role_text (with_history chat0 h) user_input w = (Ok chat', w') ->
    exists k,
      k <= 20
      /\ length (history chat') = length h + 1 + k
      /\ termination_replies w' = skipn k (termination_replies w)
      /\ ((is_complete chat' = true
           /\ exists front x,
                firstn k (termination_replies w) = (front ++ [x])%list
                /\ stops x /\ Forall continues front)
          \/ (is_complete chat' = false
              /\ k = 20
              /\ Forall continues (firstn 20 (termination_replies w)))).
Proof.
  intros h user_input w w' chat' H.
  destruct (invoke_loop_replies role_text 20
              (add_chat_message (with_history chat0 h)
                                (mkMessage USER None user_input))
              chat' (snd (log (PrintLine (user_line role_text user_input)) w))
              w' H)
    as (k & evs & Hk & Hh & _ & _ & St & _ & _ & V).
  exists k. split; [exact Hk|].
  split; [rewrite Hh; simpl; rewrite length_app; simpl; lia|].
  split; [exact St|].
  cbn [termination_strategy add_chat_message with_history chat0
       termination_parser termination_replies log snd] in V.
  destruct V as [(C & front & r & Ef & Er & Ff)|(-> & C & Ff)].
  - left. split; [exact C|]. exists front, (Some r).
    split; [exact Ef|]. split; [apply termination_parser_stop; exact Er|].
    eapply Forall_impl; [|exact Ff]. intros x (r' & -> & E').
    apply termination_parser_continue. exact E'.
  - right. split; [apply C; lia|]. split; [reflexivity|].
    eapply Forall_impl; [|exact Ff]. intros x (r' & -> & E').
    apply termination_parser_continue. exact E'.
Qed.

(** X6: whatever the history so far and whatever the remote replies, even
    when a call fails, the exchange for one user input issues at most 60
    remote requests. *)
Theorem exchange_at_most_60_requests :
  forall (h : list ChatMessageContent) (user_input : string) (w : World),
  exists evs,
    trace (snd (exchange role_text (with_history chat0 h) user_input w))
    = (trace w ++ PrintLine (user_line role_text user_input) :: evs)%list
    /\ length (requests evs) <= 60.
Proof.
  intros h user_input w.
  destruct (invoke_loop_request_bound role_text 20
              (add_chat_message (with_history chat0 h)
                                (mkMessage USER None user_input))
              (snd (log (PrintLine (user_line role_text user_input)) w)))
    as (evs & T & B).
  exists evs. split; [|exact B].
  change (exchange role_text (with_history chat0 h) user_input w)
    with (invoke_loop 20
            (add_chat_message (with_history chat0 h)
                              (mkMessage USER None user_input))
            (print_turn role_text)
            (snd (log (PrintLine (user_line role_text user_input)) w))).
  rewrite T. simpl. rewrite <- app_assoc. reflexivity.
Qed.

(** X7: an exchange that returns after generating [k] turns has taken
    exactly the first [k] replies of each of the three remote operations and
    has issued exactly [3 * k] requests. *)
Theorem exchange_consumes_replies :
  forall (h : list ChatMessageContent) (user_input : string)
         (w w' : World) (chat' : AgentGroupChat),
    exchange role_text (with_history chat0 h) user_input w = (Ok chat', w') ->
    exists k evs,
      k <= 20
      /\ length (history chat') = length h + 1 + k
      /\ selection_replies w' = skipn k (selection_replies w)
      /\ persona_replies w' = skipn k (persona_replies w)
      /\ termination_replies w' = skipn k (termination_replies w)
      /\ trace w'
         = (trace w ++ PrintLine (user_line role_text user_input) :: evs)%list
      /\ length (requests evs) = 3 * k.
Proof.
  intros h user_input w w' chat' H.
  destruct (invoke_loop_replies role_text 20
              (add_chat_message (with_history chat0 h)
                                (mkMessage USER None user_input))
              chat' (snd (log (PrintLine (user_line role_text user_input)) w))
              w' H)
    as (k & evs & Hk & Hh & Ss & Sp & St & T & R & _).
  exists k, evs. split; [exact Hk|].
  split; [rewrite Hh; simpl; rewrite length_app; simpl; lia|].
  split; [exact Ss|]. split; [exact Sp|]. split; [exact St|].
  split; [|exact R].
  rewrite T. simpl. rewrite <- app_assoc. reflexivity.
Qed.

End Verdicts.

Lemma exchange_stops_at_first_yes_witness :
  exchange role_value (with_history chat0 []) "hello"
    (snd (log (InputPrompt ask) world_agreed))
  = (Ok agreed_chat, agreed_world)
  /\ exists k,
       k <= 20
       /\ length (history agreed_chat)
          = length (@nil ChatMessageContent) + 1 + k
       /\ termination_replies agreed_world
          = skipn k (termination_replies
                       (snd (log (InputPrompt ask) world_agreed)))
       /\ ((is_complete agreed_chat = true
            /\ exists front x,
                 firstn k (termination_replies
                             (snd (log (InputPrompt ask) world_agreed)))
                 = (front ++ [x])%list
                 /\ stops x /\ Forall continues front)
           \/ (is_complete agreed_chat = false
               /\ k = 20
               /\ Forall continues
                    (firstn 20 (termination_replies
                                  (snd (log (InputPrompt ask)
                                            world_agreed)))))).
Proof.
  assert (H : exchange role_value (with_history chat0 []) "hello"
                (snd (log (InputPrompt ask) world_agreed))
              = (Ok agreed_chat, agreed_world)) by reflexivity.
  split; [exact H|].
  exact (exchange_stops_at_first_yes role_value [] "hello"
           (snd (log (InputPrompt ask) world_agreed)) agreed_world
           agreed_chat H).
Defined.

Lemma exchange_consumes_replies_witness :
  exchange role_value (with_history chat0 []) "hello"
    (snd (log (InputPrompt ask) world_agreed))
  = (Ok agreed_chat, agreed_world)
  /\ exists k evs,
       k <= 20
       /\ length (history agreed_chat)
          = length (@nil ChatMessageContent) + 1 + k
       /\ selection_replies agreed_world
          = skipn k (selection_replies
                       (snd (log (InputPrompt ask) world_agreed)))
       /\ persona_replies agreed_world
          = skipn k (persona_replies
                       (snd (log (InputPrompt ask) world_agreed)))
       /\ termination_replies agreed_world
          = skipn k (termination_replies
                       (snd (log (InputPrompt ask) world_agreed)))
       /\ trace agreed_world
          = (trace (snd (log (InputPrompt ask) world_agreed))
             ++ PrintLine (user_line role_value "hello") :: evs)%list
       /\ length (requests evs) = 3 * k.
Proof.
  assert (H : exchange role_value (with_history chat0 []) "hello"
                (snd (log (InputPrompt ask) world_agreed))
              = (Ok agreed_chat, agreed_world)) by reflexivity.
  split; [exact H|].
  exact (exchange_consumes_replies role_value [] "hello"
           (snd (log (InputPrompt ask) world_agreed)) agreed_world
           agreed_chat H).
Defined.

(** ** Selection by name, and the names printed *)

Lemma persona_by_name (a : ChatCompletionAgent) :
  In a personas ->
  find_agent personas (agent_name a) = Some a
  /\ In (agent_name a) persona_names
  /\ agent_name a <> "".
Proof.
  simpl. intros H.
  repeat (destruct H as [<-|H];
          [split; [reflexivity|split; [simpl; tauto|discriminate]]|]).
  destruct H.
Qed.



Section Names.

Variable role_text : AuthorRole -> string.

(** X9: every turn line an exchange prints carries the assistant role and
    the name of one of the three personas; the placeholder [*] is never
    printed. *)
Theorem printed_turns_name_a_persona :
  forall (h : list ChatMessageContent) (user_input : string) (w : World),
  exists evs,
    trace (snd (exchange role_text (with_history chat0 h) user_input w))
    = (trace w ++ PrintLine (user_line role_text user_input) :: evs)%list
    /\ Forall
         (fun l => exists n text,
                     In n persona_names
                     /\ l = "# " ++ role_text ASSISTANT ++ " - " ++ n
                            ++ ": '" ++ text ++ "'")
         (printed evs).
Proof.
  intros h user_input w.
  destruct (exchange_summary role_text h user_input w) as (turns & evs & R).
  exists evs. split; [exact (exchange_trace _ _ _ _ _ _ R)|].
  destruct R as [_ _ Hp Hs _ _ _]. rewrite Hp. apply Forall_map.
  eapply Forall_impl; [|exact Hs].
  intros m (Hr & a & Ha & Hn).
  destruct (persona_by_name a Ha) as (_ & Hin & Hne).
  exists (agent_name a), (content m). split; [exact Hin|].
  unfold turn_line, name_or. rewrite Hr, Hn.
  apply String.eqb_neq in Hne. rewrite Hne. reflexivity.
Qed.

End Names.

(** ** What the turns hold *)


Section Outcomes.

Variable role_text : AuthorRole -> string.



End Outcomes.

